(** * Pet Finder: a shallow embedding of [pet_finder.js]

    The development follows the source file class by class:
    [Pet], [AnimalShelter] (add / search / adopt), the callbacks of
    [UserInterface.interact] and the seed of [ProjectDriver.run].

    Modelling choices.
    - A JavaScript value that is either a string or [undefined] is an
      [option string]; [truthy] is JavaScript's ToBoolean on such values.
    - Reading [pets[i]] past the end of the array yields [undefined]; the
      property access that follows raises a TypeError.  Functions that can
      do so return a [completion].
    - Every slot of the [pets] array holds a Pet object of its own (as
      [ProjectDriver.run] builds them), so the in-place assignment
      [pet.is_available = false] on [pets[i]] is an update of slot [i].
    - [String.prototype.toLowerCase] is modelled on the ASCII letters. *)

From Stdlib Require Import List String Ascii Bool Arith Lia.
Import ListNotations.
Local Open Scope string_scope.
Local Open Scope list_scope.

(** ** JavaScript values and completions *)

(** A string-or-undefined value: [None] is [undefined]. *)
Definition jsstr := option string.

(** ToBoolean: [undefined] and the empty string are falsy. *)
Definition truthy (v : jsstr) : bool :=
  match v with
  | None => false
  | Some s => negb (s =? "")
  end.

(** Strict equality [a === b] on such values. *)
Definition strict_eq (a b : jsstr) : bool :=
  match a, b with
  | Some x, Some y => x =? y
  | None, None => true
  | _, _ => false
  end.

(** A value spliced into a template literal. *)
Definition to_str (v : jsstr) : string :=
  match v with
  | Some s => s
  | None => "undefined"
  end.

Inductive completion (A : Type) : Type :=
| Return (a : A)
| TypeError.
Arguments Return {A} a.
Arguments TypeError {A}.

(** ASCII model of [String.prototype.toLowerCase]. *)
Definition lower_ascii (c : ascii) : ascii :=
  let n := nat_of_ascii c in
  if ((65 <=? n) && (n <=? 90))%nat then ascii_of_nat (n + 32) else c.

Fixpoint toLowerCase (s : string) : string :=
  match s with
  | EmptyString => EmptyString
  | String c s' => String (lower_ascii c) (toLowerCase s')
  end.

(** ** class Pet *)

Module Pet.
Record t : Type := new {
  name : string;
  type : string;
  breed : string;
  is_available : bool
}.

(** The assignment [pet.is_available = v]. *)
Definition set_is_available (pet : t) (v : bool) : t :=
  new (name pet) (type pet) (breed pet) v.
End Pet.
Abbreviation Pet := Pet.t.

(** In-place update of slot [i] of an array known to hold [i]. *)
Fixpoint store (A : Type) (l : list A) (i : nat) (x : A) : list A :=
  match l, i with
  | [], _ => []
  | _ :: l', O => x :: l'
  | y :: l', S i' => y :: store A l' i' x
  end.
Arguments store {A} l i x.

(** ** class AnimalShelter *)

Module AnimalShelter.
Record t : Type := new {
  pets : list Pet;
  count : nat
}.

(** [add( pet )]: [this.pets.push( pet )]; [count] is left as it is. *)
Definition add (this : t) (pet : Pet) : t :=
  new (pets this ++ [pet]) (count this).

(** One of the four [for (let i = 0; i < this.count; i++)] loops of
    [search]: [n] iterations remain, [i] is the loop index, [keep] is the
    branch's test and [results] the array built so far. *)
Fixpoint search_loop (keep : Pet -> bool) (pets : list Pet) (i n : nat)
         (results : list Pet) : completion (list Pet) :=
  match n with
  | O => Return results
  | S n' =>
      match nth_error pets i with
      | None => TypeError
      | Some pet =>
          search_loop keep pets (S i) n'
                      (if keep pet then results ++ [pet] else results)
      end
  end.

Definition search (this : t) (type breed : jsstr) : completion (list Pet) :=
  if truthy type && truthy breed then
    search_loop (fun pet => strict_eq (Some (Pet.type pet)) type
                            && strict_eq (Some (Pet.breed pet)) breed
                            && Pet.is_available pet)
                (pets this) 0 (count this) []
  else if truthy type && negb (truthy breed) then
    search_loop (fun pet => strict_eq (Some (Pet.type pet)) type
                            && Pet.is_available pet)
                (pets this) 0 (count this) []
  else if negb (truthy type) && truthy breed then
    search_loop (fun pet => strict_eq (Some (Pet.breed pet)) breed
                            && Pet.is_available pet)
                (pets this) 0 (count this) []
  else
    search_loop (fun pet => Pet.is_available pet)
                (pets this) 0 (count this) [].

(** [name.toLowerCase()] for a truthy [name]. *)
Definition lower (name : jsstr) : jsstr :=
  match name with
  | None => None
  | Some s => Some (toLowerCase s)
  end.

(** The loop of [adopt].  The condition is
    [name && pet.name.toLowerCase() === name.toLowerCase() && pet.is_available]:
    with a falsy [name] the [&&] short-circuits before [pet] is touched,
    so no TypeError can arise; otherwise [pet.name] on [undefined] raises. *)
Fixpoint adopt_loop (name : jsstr) (pets : list Pet) (i n : nat)
         (result : bool) : list Pet * completion bool :=
  match n with
  | O => (pets, Return result)
  | S n' =>
      if truthy name then
        match nth_error pets i with
        | None => (pets, TypeError)
        | Some pet =>
            if strict_eq (Some (toLowerCase (Pet.name pet))) (lower name)
               && Pet.is_available pet
            then adopt_loop name
                            (store pets i (Pet.set_is_available pet false))
                            (S i) n' true
            else adopt_loop name pets (S i) n' result
        end
      else adopt_loop name pets (S i) n' result
  end.

(** [adopt( name )]: the shelter after the call, and what the call
    returned.  A TypeError leaves the assignments made before it. *)
Definition adopt (this : t) (name : jsstr) : t * completion bool :=
  let (pets', r) := adopt_loop name (pets this) 0 (count this) false in
  (new pets' (count this), r).
End AnimalShelter.
Abbreviation AnimalShelter := AnimalShelter.t.

(** ** class UserInterface *)

Module UserInterface.

Definition nl : string := String (ascii_of_nat 10) EmptyString.

Definition instructions : string :=
  nl ++ "* Enter 1 to see available pets"
  ++ nl ++ "* Enter 2 to search for a pet by type and breed"
  ++ nl ++ "* Enter 3 to adopt the pet by name"
  ++ nl ++ "* Enter 4 to exit" ++ nl.

(** The template literal [`${pet.name}, ${pet.type}, ${pet.breed}`]. *)
Definition pet_line (pet : Pet) : string :=
  Pet.name pet ++ ", " ++ Pet.type pet ++ ", " ++ Pet.breed pet.

(** Which [prompt.get] callback is outstanding.  [stopped]: none, the
    loop has ended.  [uncaught]: a TypeError escaped a callback. *)
Inductive pending : Type :=
| get_input
| get_type
| get_breed (type : jsstr)
| get_name
| stopped
| uncaught.

(** The session: the shelter it holds, the lines written by
    [console.log] so far (oldest first) and the outstanding prompt. *)
Record t : Type := new {
  animal_shelter : AnimalShelter;
  console : list string;
  waiting : pending
}.

Definition log (s : t) (line : string) : t :=
  new (animal_shelter s) (console s ++ [line]) (waiting s).

Definition await (s : t) (w : pending) : t :=
  new (animal_shelter s) (console s) w.

(** Sequencing of two statements: the second runs unless the first left
    a TypeError uncaught. *)
Definition and_then (s : t) (k : t -> t) : t :=
  match waiting s with
  | uncaught => s
  | _ => k s
  end.

(** [ask()]: print the instructions and wait for a menu selection. *)
Definition ask (s : t) : t :=
  await (log s instructions) get_input.

(** The loop of [displayShelterAnimals], over the first [count] slots. *)
Fixpoint display_loop (pets : list Pet) (i n : nat) (s : t) : t :=
  match n with
  | O => s
  | S n' =>
      match nth_error pets i with
      | None => await s uncaught
      | Some pet =>
          display_loop pets (S i) n'
                       (if Pet.is_available pet then log s (pet_line pet)
                        else s)
      end
  end.

Definition displayShelterAnimals (s : t) : t :=
  let s := log s (nl ++ "Pets available for adoption:") in
  let pets := AnimalShelter.pets (animal_shelter s) in
  let count := AnimalShelter.count (animal_shelter s) in
  if (count =? 0)%nat then log s "No pets are currently available."
  else display_loop pets 0 count s.

(** The [for] loop of [askBreed] over the array returned by [search]. *)
Fixpoint print_found (pets : list Pet) (s : t) : t :=
  match pets with
  | [] => s
  | pet :: rest =>
      print_found rest
                  (if Pet.is_available pet then log s (pet_line pet) else s)
  end.

(** [askBreed( type )] registers the callback; this is the callback.
    [result] is [None] when [prompt] hands over an undefined result,
    otherwise the value of [result.breed]. *)
Definition askBreed_callback (type : jsstr) (s : t) (result : option jsstr)
  : t :=
  match result with
  | None => await s uncaught
  | Some breed =>
      match AnimalShelter.search (animal_shelter s) type breed with
      | TypeError => await s uncaught
      | Return pets =>
          let s :=
            if (0 <? List.length pets)%nat then print_found pets s
            else if truthy type && truthy breed then
              log s ("No pets are available for selected type ("
                       ++ to_str type ++ " and breed " ++ to_str breed ++ ".")
            else if truthy type && negb (truthy breed) then
              log s ("No pets are available for selected type ("
                       ++ to_str type ++ ".")
            else if negb (truthy type) && truthy breed then
              log s ("No pets are available for selected breed ("
                       ++ to_str breed ++ ".")
            else if negb (truthy type) && negb (truthy breed) then
              log s "No pets are available."
            else s in
          ask s
      end
  end.

Definition askBreed (type : jsstr) (s : t) : t :=
  await s (get_breed type).

(** The callback of [askType]. *)
Definition askType_callback (s : t) (result : option jsstr) : t :=
  match result with
  | None => await s uncaught
  | Some type =>
      if strict_eq type (Some "cat") || strict_eq type (Some "dog")
      then askBreed type s
      else askBreed (Some "") s
  end.

Definition askType (s : t) : t :=
  await (log s "Enter the type:") get_type.

(** The callback of [askName]. *)
Definition askName_callback (s : t) (result : option jsstr) : t :=
  match result with
  | None => await s stopped
  | Some name =>
      if truthy name then
        let (shelter', r) := AnimalShelter.adopt (animal_shelter s) name in
        let s := new shelter' (console s) (waiting s) in
        match r with
        | TypeError => await s uncaught
        | Return is_adopted =>
            ask (if is_adopted
                 then log s ("Congratulations! You adopted "
                               ++ to_str name ++ ".")
                 else log (log s "Something went wrong. Please check that the name is spelled correctly.")
                          ("Pet trying to adopt is " ++ to_str name ++ "."))
        end
      else
        ask (log s "You must specify a valid name in order to adopt a pet. Please try again.")
  end.

Definition askName (s : t) : t :=
  await (log s "Enter the name of the pet you want to adopt:") get_name.

(** The callback of [ask]. *)
Definition ask_callback (s : t) (result : option jsstr) : t :=
  match result with
  | Some selection =>
      if strict_eq selection (Some "1") then
        and_then (displayShelterAnimals s) ask
      else if strict_eq selection (Some "2") then
        askType (log s "Enter the type of pet (dog or cat):")
      else if strict_eq selection (Some "3") then
        askName s
      else if strict_eq selection (Some "4") then
        await (log s "Exiting the program.") stopped
      else ask s
  | None => ask s
  end.

(** [prompt] invokes the outstanding callback with [result]. *)
Definition deliver (s : t) (result : option jsstr) : t :=
  match waiting s with
  | get_input => ask_callback s result
  | get_type => askType_callback s result
  | get_breed type => askBreed_callback type s result
  | get_name => askName_callback s result
  | stopped => s
  | uncaught => s
  end.

(** [interact()] up to its first prompt. *)
Definition interact (animal_shelter : AnimalShelter) : t :=
  ask (log (log (new animal_shelter [] stopped) "")
           "*** Welcome to Pet Finder! ***").

(** The session after [prompt] has delivered [results] in turn. *)
Definition session (animal_shelter : AnimalShelter)
           (results : list (option jsstr)) : t :=
  fold_left deliver results (interact animal_shelter).

End UserInterface.

(** ** class ProjectDriver *)

Module ProjectDriver.

Definition Luna := Pet.new "Luna" "dog" "Golden Retriever" true.
Definition Teddy := Pet.new "Teddy" "dog" "Labrador" true.
Definition Charlie := Pet.new "Charlie" "dog" "Golden Retriever" true.
Definition Aster := Pet.new "Aster" "dog" "Husky" true.
Definition Goldie := Pet.new "Goldie" "cat" "Shorthair" true.
Definition Lisa := Pet.new "Lisa" "cat" "Longhair" true.
Definition Timmy := Pet.new "Timmy" "cat" "Siamese" true.
Definition Oliver := Pet.new "Oliver" "cat" "Shorthair" true.

Definition pets : list Pet :=
  [Luna; Teddy; Charlie; Aster; Goldie; Lisa; Timmy; Oliver].

Definition animal_shelter : AnimalShelter :=
  AnimalShelter.new pets (List.length pets).

(** [run()]: seed the shelter and start the session. *)
Definition run : UserInterface.t := UserInterface.interact animal_shelter.

End ProjectDriver.

(** ** Vocabulary of the properties *)

(** A filter of [search]: a falsy value (absent or empty) accepts every
    string, a truthy one only itself. *)
Definition passes (filter : jsstr) (s : string) : bool :=
  if truthy filter then strict_eq (Some s) filter else true.

(** The pets [search] is meant to return. *)
Definition wanted (type breed : jsstr) (pet : Pet) : bool :=
  passes type (Pet.type pet) && passes breed (Pet.breed pet)
  && Pet.is_available pet.

(** [name] designates [pet], letter case aside. *)
Definition same_name (name : jsstr) (pet : Pet) : bool :=
  strict_eq (Some (toLowerCase (Pet.name pet))) (AnimalShelter.lower name).

(** [pet] can be adopted under [name]. *)
Definition adoptable (name : jsstr) (pet : Pet) : bool :=
  same_name name pet && Pet.is_available pet.

(** What one successful or unsuccessful visit of [adopt]'s loop leaves
    in the slot. *)
Definition adopt_pet (name : jsstr) (pet : Pet) : Pet :=
  if adoptable name pet then Pet.set_is_available pet false else pet.

(** The line [askBreed] prints when [search] found nothing, by which of
    the two filters are set. *)
Definition no_match_line (type breed : jsstr) : string :=
  if truthy type && truthy breed then
    "No pets are available for selected type ("
      ++ to_str type ++ " and breed " ++ to_str breed ++ "."
  else if truthy type then
    "No pets are available for selected type (" ++ to_str type ++ "."
  else if truthy breed then
    "No pets are available for selected breed (" ++ to_str breed ++ "."
  else "No pets are available.".


(** The operations of the shelter, and the shelter each of them leaves.
    [search] and the listing only read; the listing runs in a session. *)
Inductive operation : Type :=
| Add (pet : Pet)
| Search (type breed : jsstr)
| Adopt (name : jsstr)
| Listing.

Definition perform (shelter : AnimalShelter) (op : operation)
  : AnimalShelter :=
  match op with
  | Add pet => AnimalShelter.add shelter pet
  | Search _ _ => shelter
  | Adopt name => fst (AnimalShelter.adopt shelter name)
  | Listing =>
      UserInterface.animal_shelter
        (UserInterface.displayShelterAnimals
           (UserInterface.new shelter [] UserInterface.get_input))
  end.

(** The pets handed to [add] in a run of operations, in order, and the
    run without its [add]s. *)
Fixpoint added (ops : list operation) : list Pet :=
  match ops with
  | [] => []
  | Add pet :: ops' => pet :: added ops'
  | _ :: ops' => added ops'
  end.

Fixpoint without_adds (ops : list operation) : list operation :=
  match ops with
  | [] => []
  | Add _ :: ops' => without_adds ops'
  | op :: ops' => op :: without_adds ops'
  end.

(** Slot by slot: nothing is removed, the identity of a pet stays, and
    an adopted pet stays adopted. *)
Definition keeps (before after : list Pet) : Prop :=
  List.length before <= List.length after /\
  forall i pet, nth_error before i = Some pet ->
    exists pet', nth_error after i = Some pet'
      /\ Pet.name pet' = Pet.name pet
      /\ Pet.type pet' = Pet.type pet
      /\ Pet.breed pet' = Pet.breed pet
      /\ (Pet.is_available pet = false -> Pet.is_available pet' = false).

(** A pet brought to the shelter after seeding. *)
Definition Rex := Pet.new "Rex" "dog" "Husky" true.

(** The seeded shelter after [add(Rex)]. *)
Definition seed_and_Rex : AnimalShelter :=
  AnimalShelter.add ProjectDriver.animal_shelter Rex.

(** An empty shelter after [add(Rex)]. *)
Definition only_Rex : AnimalShelter :=
  AnimalShelter.add (AnimalShelter.new [] 0) Rex.

(** A shelter constructed with a [count] larger than its array, after
    [add(Rex)]. *)
Definition overstated_and_Rex : AnimalShelter :=
  AnimalShelter.add (AnimalShelter.new [] 1) Rex.

(** What [prompt] hands to a callback: the line typed, or nothing. *)
Definition typed (line : string) : option jsstr := Some (Some line).
Definition no_result : option jsstr := None.

(** The user adopts each of the eight seeded pets in turn. *)
Definition adopt_everyone : list (option jsstr) :=
  flat_map (fun pet => [typed "3"; typed (Pet.name pet)])
           ProjectDriver.pets.

Definition everyone_adopted : UserInterface.t :=
  UserInterface.session ProjectDriver.animal_shelter adopt_everyone.

(** * Properties *)

(** ** Arrays *)

Lemma nth_error_middle (A : Type) (pre post : list A) (x : A) :
  nth_error (pre ++ x :: post) (List.length pre) = Some x.
Proof.
  induction pre as [|y pre IH]; simpl; auto.
Qed.

Lemma nth_error_end (A : Type) (l : list A) :
  nth_error l (List.length l) = None.
Proof.
  apply nth_error_None. lia.
Qed.

Lemma store_middle (A : Type) (pre post : list A) (x y : A) :
  store (pre ++ x :: post) (List.length pre) y = pre ++ y :: post.
Proof.
  induction pre as [|z pre IH]; simpl; [reflexivity|].
  now rewrite IH.
Qed.

Lemma store_length (A : Type) (l : list A) (i : nat) (x : A) :
  List.length (store l i x) = List.length l.
Proof.
  revert i; induction l as [|y l IH]; intros [|i]; simpl; auto.
Qed.

Lemma snoc_middle (A : Type) (pre post : list A) (x : A) :
  pre ++ x :: post = (pre ++ [x]) ++ post.
Proof.
  now rewrite <- app_assoc.
Qed.

Lemma length_snoc (A : Type) (l : list A) (x : A) :
  List.length (l ++ [x]) = S (List.length l).
Proof.
  rewrite length_app; simpl; lia.
Qed.

(** A prefix of [n <= length l] slots splits the array. *)
Lemma split_at (A : Type) (l : list A) (n : nat) :
  n <= List.length l ->
  l = firstn n l ++ skipn n l /\ List.length (firstn n l) = n.
Proof.
  intros H; split.
  - symmetry; apply firstn_skipn.
  - apply firstn_length_le; exact H.
Qed.

(** ** The loops of [search] *)

Lemma search_loop_visits keep (mid : list Pet) :
  forall pre post results,
    AnimalShelter.search_loop keep (pre ++ mid ++ post)
                              (List.length pre) (List.length mid) results
    = Return (results ++ filter keep mid).
Proof.
  induction mid as [|pet mid IH]; intros pre post results; simpl.
  - now rewrite app_nil_r.
  - rewrite nth_error_middle.
    rewrite snoc_middle, <- (length_snoc _ pre pet), IH.
    destruct (keep pet); simpl; [now rewrite <- app_assoc | reflexivity].
Qed.

Lemma search_loop_overruns keep (mid : list Pet) :
  forall pre k results,
    AnimalShelter.search_loop keep (pre ++ mid)
                              (List.length pre) (List.length mid + S k)
                              results
    = TypeError.
Proof.
  induction mid as [|pet mid IH]; intros pre k results; simpl.
  - now rewrite app_nil_r, nth_error_end.
  - rewrite nth_error_middle.
    rewrite snoc_middle, <- (length_snoc _ pre pet). apply IH.
Qed.

Lemma search_loop_within keep pets count :
  count <= List.length pets ->
  AnimalShelter.search_loop keep pets 0 count []
  = Return (filter keep (firstn count pets)).
Proof.
  intros H. destruct (split_at _ pets count H) as [E L].
  pose proof (search_loop_visits keep (firstn count pets) []
                                 (skipn count pets) []) as V.
  simpl in V. rewrite <- E, L in V. exact V.
Qed.

Lemma search_loop_beyond keep pets count :
  List.length pets < count ->
  AnimalShelter.search_loop keep pets 0 count [] = TypeError.
Proof.
  intros H.
  replace count with (List.length pets + S (count - List.length pets - 1))
    by lia.
  exact (search_loop_overruns keep pets [] _ []).
Qed.

(** [search] on a shelter whose [count] does not exceed the array:
    the wanted pets among the first [count], in array order. *)
Lemma search_within (this : AnimalShelter) type breed :
  AnimalShelter.count this <= List.length (AnimalShelter.pets this) ->
  AnimalShelter.search this type breed
  = Return (filter (wanted type breed)
                   (firstn (AnimalShelter.count this)
                           (AnimalShelter.pets this))).
Proof.
  intros H. unfold AnimalShelter.search.
  destruct (truthy type) eqn:Ht, (truthy breed) eqn:Hb; simpl;
    rewrite (search_loop_within _ _ _ H); f_equal;
    apply filter_ext; intros pet; unfold wanted, passes;
    rewrite Ht, Hb; simpl; try reflexivity.
  now rewrite andb_true_r.
Qed.

(** [search] reads past the array when [count] exceeds it. *)
Lemma search_beyond (this : AnimalShelter) type breed :
  List.length (AnimalShelter.pets this) < AnimalShelter.count this ->
  AnimalShelter.search this type breed = TypeError.
Proof.
  intros H. unfold AnimalShelter.search.
  destruct (truthy type), (truthy breed); simpl;
    apply search_loop_beyond; exact H.
Qed.

(** When [count] is the number of pets, [search] covers the shelter. *)
Lemma search_whole (this : AnimalShelter) type breed :
  AnimalShelter.count this = List.length (AnimalShelter.pets this) ->
  AnimalShelter.search this type breed
  = Return (filter (wanted type breed) (AnimalShelter.pets this)).
Proof.
  intros H. rewrite search_within by lia.
  now rewrite H, firstn_all.
Qed.

(** ** The loop of [adopt] *)

Lemma adopt_loop_falsy name :
  truthy name = false ->
  forall n pets i result,
    AnimalShelter.adopt_loop name pets i n result = (pets, Return result).
Proof.
  intros Hn; induction n as [|n IH]; intros pets i result; simpl.
  - reflexivity.
  - rewrite Hn. apply IH.
Qed.

Lemma adopt_loop_step name pets i n result :
  AnimalShelter.adopt_loop name pets i (S n) result
  = if truthy name then
      match nth_error pets i with
      | None => (pets, TypeError)
      | Some pet =>
          if adoptable name pet
          then AnimalShelter.adopt_loop
                 name (store pets i (Pet.set_is_available pet false))
                 (S i) n true
          else AnimalShelter.adopt_loop name pets (S i) n result
      end
    else AnimalShelter.adopt_loop name pets (S i) n result.
Proof.
  reflexivity.
Qed.

Lemma adopt_loop_visits name (mid : list Pet) :
  truthy name = true ->
  forall pre post result,
    AnimalShelter.adopt_loop name (pre ++ mid ++ post)
                             (List.length pre) (List.length mid) result
    = (pre ++ map (adopt_pet name) mid ++ post,
       Return (result || existsb (adoptable name) mid)).
Proof.
  intros Hn; induction mid as [|pet mid IH]; intros pre post result.
  - simpl. now rewrite orb_false_r.
  - cbn [List.length map existsb app].
    rewrite adopt_loop_step, Hn, nth_error_middle.
    unfold adopt_pet at 1.
    destruct (adoptable name pet) eqn:Ha.
    + rewrite store_middle.
      rewrite snoc_middle,
        <- (length_snoc _ pre (Pet.set_is_available pet false)).
      rewrite IH, <- app_assoc; simpl. now rewrite orb_true_r.
    + rewrite snoc_middle, <- (length_snoc _ pre pet).
      rewrite IH, <- app_assoc; reflexivity.
Qed.

Lemma adopt_loop_overruns name (mid : list Pet) :
  truthy name = true ->
  forall pre k result,
    AnimalShelter.adopt_loop name (pre ++ mid)
                             (List.length pre) (List.length mid + S k) result
    = (pre ++ map (adopt_pet name) mid, TypeError).
Proof.
  intros Hn; induction mid as [|pet mid IH]; intros pre k result.
  - cbn [List.length map Nat.add].
    now rewrite adopt_loop_step, Hn, app_nil_r, nth_error_end.
  - cbn [List.length map Nat.add].
    rewrite adopt_loop_step, Hn, nth_error_middle.
    unfold adopt_pet at 1.
    destruct (adoptable name pet) eqn:Ha.
    + rewrite store_middle.
      rewrite snoc_middle,
        <- (length_snoc _ pre (Pet.set_is_available pet false)).
      rewrite IH, <- app_assoc; reflexivity.
    + rewrite snoc_middle, <- (length_snoc _ pre pet).
      rewrite IH, <- app_assoc; reflexivity.
Qed.

(** [adopt] with an absent or empty name: nothing is read or written. *)
Lemma adopt_falsy (this : AnimalShelter) name :
  truthy name = false ->
  AnimalShelter.adopt this name = (this, Return false).
Proof.
  intros Hn. unfold AnimalShelter.adopt.
  rewrite (adopt_loop_falsy name Hn). now destruct this.
Qed.

(** [adopt] with a name, [count] within the array: every adoptable pet
    among the first [count] is adopted, and the call reports whether
    there was one. *)
Lemma adopt_within (this : AnimalShelter) name :
  truthy name = true ->
  AnimalShelter.count this <= List.length (AnimalShelter.pets this) ->
  AnimalShelter.adopt this name
  = (AnimalShelter.new
       (map (adopt_pet name)
            (firstn (AnimalShelter.count this) (AnimalShelter.pets this))
        ++ skipn (AnimalShelter.count this) (AnimalShelter.pets this))
       (AnimalShelter.count this),
     Return (existsb (adoptable name)
                     (firstn (AnimalShelter.count this)
                             (AnimalShelter.pets this)))).
Proof.
  intros Hn H. unfold AnimalShelter.adopt.
  destruct (split_at _ _ _ H) as [E L].
  pose proof (adopt_loop_visits name
                (firstn (AnimalShelter.count this) (AnimalShelter.pets this))
                Hn [] (skipn (AnimalShelter.count this)
                             (AnimalShelter.pets this)) false) as V.
  simpl in V. rewrite <- E, L in V. now rewrite V.
Qed.

(** [adopt] with a name, [count] beyond the array: the pets are visited
    and then [pets[i]] is [undefined]. *)
Lemma adopt_beyond (this : AnimalShelter) name :
  truthy name = true ->
  List.length (AnimalShelter.pets this) < AnimalShelter.count this ->
  AnimalShelter.adopt this name
  = (AnimalShelter.new (map (adopt_pet name) (AnimalShelter.pets this))
                       (AnimalShelter.count this),
     TypeError).
Proof.
  intros Hn H. unfold AnimalShelter.adopt.
  pose proof (adopt_loop_overruns name (AnimalShelter.pets this) Hn []
                (AnimalShelter.count this
                 - List.length (AnimalShelter.pets this) - 1) false) as V.
  simpl in V.
  replace (List.length (AnimalShelter.pets this)
           + S (AnimalShelter.count this
                - List.length (AnimalShelter.pets this) - 1))
    with (AnimalShelter.count this) in V by lia.
  now rewrite V.
Qed.

Lemma adopt_pet_not_adoptable name pet :
  adoptable name (adopt_pet name pet) = false.
Proof.
  unfold adopt_pet. destruct (adoptable name pet) eqn:Ha; [|exact Ha].
  unfold adoptable; simpl. apply andb_false_r.
Qed.

Lemma adopt_pet_again name pet :
  adopt_pet name (adopt_pet name pet) = adopt_pet name pet.
Proof.
  unfold adopt_pet at 1. now rewrite adopt_pet_not_adoptable.
Qed.

Lemma adopt_pet_none name (l : list Pet) :
  existsb (adoptable name) l = false -> map (adopt_pet name) l = l.
Proof.
  induction l as [|pet l IH]; simpl; [reflexivity|].
  intros H. apply orb_false_iff in H as [Hp Hl].
  unfold adopt_pet at 1. rewrite Hp. now rewrite IH.
Qed.

Lemma adopted_none_left name (l : list Pet) :
  existsb (adoptable name) (map (adopt_pet name) l) = false.
Proof.
  induction l as [|pet l IH]; simpl; [reflexivity|].
  now rewrite adopt_pet_not_adoptable, IH.
Qed.

(** ** The listing *)

Lemma print_found_prints (found : list Pet) :
  forall s,
    UserInterface.print_found found s
    = UserInterface.new
        (UserInterface.animal_shelter s)
        (UserInterface.console s
         ++ map UserInterface.pet_line (filter Pet.is_available found))
        (UserInterface.waiting s).
Proof.
  induction found as [|pet found IH]; intros s; simpl.
  - rewrite app_nil_r. now destruct s.
  - rewrite IH. destruct (Pet.is_available pet); simpl; [|reflexivity].
    now rewrite <- app_assoc.
Qed.

Lemma display_loop_visits (mid : list Pet) :
  forall pre post s,
    UserInterface.display_loop (pre ++ mid ++ post)
                               (List.length pre) (List.length mid) s
    = UserInterface.print_found mid s.
Proof.
  induction mid as [|pet mid IH]; intros pre post s; simpl.
  - reflexivity.
  - rewrite nth_error_middle.
    rewrite snoc_middle, <- (length_snoc _ pre pet). apply IH.
Qed.

Lemma display_loop_shelter pets n :
  forall i s,
    UserInterface.animal_shelter (UserInterface.display_loop pets i n s)
    = UserInterface.animal_shelter s.
Proof.
  induction n as [|n IH]; intros i s; simpl.
  - reflexivity.
  - destruct (nth_error pets i) as [pet|]; [|reflexivity].
    rewrite IH. now destruct (Pet.is_available pet).
Qed.

(** The listing never touches the shelter. *)
Lemma displayShelterAnimals_shelter s :
  UserInterface.animal_shelter (UserInterface.displayShelterAnimals s)
  = UserInterface.animal_shelter s.
Proof.
  unfold UserInterface.displayShelterAnimals; simpl.
  destruct (AnimalShelter.count (UserInterface.animal_shelter s) =? 0)%nat.
  - reflexivity.
  - now rewrite display_loop_shelter.
Qed.

(** The listing on a shelter whose [count] does not exceed the array:
    the heading, then either the message (only when [count] is zero) or
    a line for each available pet among the first [count]. *)
Lemma displayShelterAnimals_within s :
  let shelter := UserInterface.animal_shelter s in
  AnimalShelter.count shelter <= List.length (AnimalShelter.pets shelter) ->
  UserInterface.displayShelterAnimals s
  = UserInterface.new
      shelter
      (UserInterface.console s
       ++ (UserInterface.nl ++ "Pets available for adoption:")%string
       :: (if (AnimalShelter.count shelter =? 0)%nat
           then ["No pets are currently available."]
           else map UserInterface.pet_line
                    (filter Pet.is_available
                            (firstn (AnimalShelter.count shelter)
                                    (AnimalShelter.pets shelter)))))
      (UserInterface.waiting s).
Proof.
  intros shelter H. unfold UserInterface.displayShelterAnimals.
  cbn [UserInterface.animal_shelter UserInterface.log].
  fold shelter.
  destruct (AnimalShelter.count shelter =? 0)%nat eqn:E.
  - unfold UserInterface.log; simpl. now rewrite <- app_assoc.
  - destruct (split_at _ _ _ H) as [S L].
    pose proof (display_loop_visits
                  (firstn (AnimalShelter.count shelter)
                          (AnimalShelter.pets shelter))
                  [] (skipn (AnimalShelter.count shelter)
                            (AnimalShelter.pets shelter))) as V.
    simpl in V. rewrite <- S, L in V. rewrite V, print_found_prints.
    unfold UserInterface.log; simpl. now rewrite <- app_assoc.
Qed.

(** ** What the operations keep *)

Lemma keeps_refl l : keeps l l.
Proof.
  split; [lia|]. intros i pet H. exists pet. auto.
Qed.

Lemma keeps_trans l1 l2 l3 : keeps l1 l2 -> keeps l2 l3 -> keeps l1 l3.
Proof.
  intros [L12 P12] [L23 P23]. split; [lia|].
  intros i pet H.
  destruct (P12 i pet H) as (pet2 & H2 & N2 & T2 & B2 & A2).
  destruct (P23 i pet2 H2) as (pet3 & H3 & N3 & T3 & B3 & A3).
  exists pet3. repeat split; try congruence. auto.
Qed.

Lemma keeps_push l pet : keeps l (l ++ [pet]).
Proof.
  split; [rewrite length_app; lia|].
  intros i p H. exists p. split; [|auto].
  rewrite nth_error_app1; [exact H|].
  apply nth_error_Some. congruence.
Qed.

Lemma adopt_pet_keeps name pet :
  Pet.name (adopt_pet name pet) = Pet.name pet
  /\ Pet.type (adopt_pet name pet) = Pet.type pet
  /\ Pet.breed (adopt_pet name pet) = Pet.breed pet
  /\ (Pet.is_available pet = false ->
      Pet.is_available (adopt_pet name pet) = false).
Proof.
  unfold adopt_pet. destruct (adoptable name pet); simpl; auto.
Qed.

Lemma keeps_adopted name l1 l2 :
  keeps (l1 ++ l2) (map (adopt_pet name) l1 ++ l2).
Proof.
  split; [rewrite !length_app, length_map; lia|].
  intros i pet H.
  destruct (Nat.lt_ge_cases i (List.length l1)) as [Hi|Hi].
  - rewrite nth_error_app1 in H by exact Hi.
    exists (adopt_pet name pet). split; [|apply adopt_pet_keeps].
    rewrite nth_error_app1 by (rewrite length_map; exact Hi).
    now apply map_nth_error.
  - rewrite nth_error_app2 in H by exact Hi.
    exists pet. split; [|auto].
    rewrite nth_error_app2 by (rewrite length_map; exact Hi).
    now rewrite length_map.
Qed.

Lemma adopt_keeps (this : AnimalShelter) name :
  keeps (AnimalShelter.pets this)
        (AnimalShelter.pets (fst (AnimalShelter.adopt this name))).
Proof.
  destruct (truthy name) eqn:Hn.
  - destruct (Nat.le_gt_cases (AnimalShelter.count this)
                              (List.length (AnimalShelter.pets this)))
      as [H|H].
    + rewrite adopt_within by assumption. simpl.
      rewrite <- (firstn_skipn (AnimalShelter.count this)
                               (AnimalShelter.pets this)) at 1.
      apply keeps_adopted.
    + rewrite adopt_beyond by assumption. simpl.
      pose proof (keeps_adopted name (AnimalShelter.pets this) []) as K.
      now rewrite !app_nil_r in K.
  - rewrite adopt_falsy by assumption. apply keeps_refl.
Qed.

Lemma perform_keeps (shelter : AnimalShelter) (op : operation) :
  keeps (AnimalShelter.pets shelter)
        (AnimalShelter.pets (perform shelter op)).
Proof.
  destruct op as [pet|type breed|name|]; simpl.
  - apply keeps_push.
  - apply keeps_refl.
  - apply adopt_keeps.
  - rewrite displayShelterAnimals_shelter. apply keeps_refl.
Qed.

Lemma adopt_count (this : AnimalShelter) name :
  AnimalShelter.count (fst (AnimalShelter.adopt this name))
  = AnimalShelter.count this.
Proof.
  unfold AnimalShelter.adopt.
  now destruct (AnimalShelter.adopt_loop name (AnimalShelter.pets this) 0
                                         (AnimalShelter.count this) false).
Qed.

Lemma perform_count (shelter : AnimalShelter) (op : operation) :
  AnimalShelter.count (perform shelter op) = AnimalShelter.count shelter.
Proof.
  destruct op as [pet|type breed|name|]; simpl.
  - reflexivity.
  - reflexivity.
  - apply adopt_count.
  - now rewrite displayShelterAnimals_shelter.
Qed.

(** The same through the session: whatever [prompt] delivers. *)
Lemma ask_callback_shelter s result :
  UserInterface.animal_shelter (UserInterface.ask_callback s result)
  = UserInterface.animal_shelter s.
Proof.
  unfold UserInterface.ask_callback.
  destruct result as [selection|]; [|reflexivity].
  repeat match goal with
         | |- context [if ?b then _ else _] => destruct b
         end; try reflexivity.
  unfold UserInterface.and_then.
  destruct (UserInterface.waiting (UserInterface.displayShelterAnimals s));
    simpl; apply displayShelterAnimals_shelter.
Qed.

Lemma askBreed_callback_shelter type s result :
  UserInterface.animal_shelter (UserInterface.askBreed_callback type s result)
  = UserInterface.animal_shelter s.
Proof.
  unfold UserInterface.askBreed_callback.
  destruct result as [breed|]; [|reflexivity].
  destruct (AnimalShelter.search (UserInterface.animal_shelter s) type breed)
    as [found|]; [|reflexivity].
  repeat match goal with
         | |- context [if ?b then _ else _] => destruct b
         end; try reflexivity.
  simpl. now rewrite print_found_prints.
Qed.

Lemma askName_callback_keeps s result :
  keeps (AnimalShelter.pets (UserInterface.animal_shelter s))
        (AnimalShelter.pets
           (UserInterface.animal_shelter
              (UserInterface.askName_callback s result))).
Proof.
  unfold UserInterface.askName_callback.
  destruct result as [name|]; [|apply keeps_refl].
  destruct (truthy name); [|apply keeps_refl].
  pose proof (adopt_keeps (UserInterface.animal_shelter s) name) as K.
  destruct (AnimalShelter.adopt (UserInterface.animal_shelter s) name)
    as [shelter' [[|]|]]; exact K.
Qed.

Lemma deliver_keeps s result :
  keeps (AnimalShelter.pets (UserInterface.animal_shelter s))
        (AnimalShelter.pets
           (UserInterface.animal_shelter (UserInterface.deliver s result))).
Proof.
  unfold UserInterface.deliver.
  destruct (UserInterface.waiting s).
  - rewrite ask_callback_shelter. apply keeps_refl.
  - unfold UserInterface.askType_callback.
    destruct result as [type|]; [|apply keeps_refl].
    destruct (_ || _); apply keeps_refl.
  - rewrite askBreed_callback_shelter. apply keeps_refl.
  - apply askName_callback_keeps.
  - apply keeps_refl.
  - apply keeps_refl.
Qed.

Lemma deliveries_keep results :
  forall s,
    keeps (AnimalShelter.pets (UserInterface.animal_shelter s))
          (AnimalShelter.pets
             (UserInterface.animal_shelter
                (fold_left UserInterface.deliver results s))).
Proof.
  induction results as [|result results IH]; intros s; simpl.
  - apply keeps_refl.
  - eapply keeps_trans; [apply deliver_keeps | apply IH].
Qed.

(** ** The seeded shelter *)

(** C8: on the seed of [ProjectDriver.run], before any adoption,
    [search("dog", "")] returns Luna, Teddy, Charlie and Aster, in that
    order. *)
Theorem search_dog_on_seed :
  AnimalShelter.search ProjectDriver.animal_shelter (Some "dog") (Some "")
  = Return [ProjectDriver.Luna; ProjectDriver.Teddy;
            ProjectDriver.Charlie; ProjectDriver.Aster].
Proof.
  reflexivity.
Qed.

(** ** Adoption *)

(** C6: when [adopt(name)] returns true, the same call made again right
    away returns false, and leaves the shelter as the first call left
    it. *)
Theorem adopt_twice (shelter shelter' : AnimalShelter) (name : jsstr) :
  AnimalShelter.adopt shelter name = (shelter', Return true) ->
  AnimalShelter.adopt shelter' name = (shelter', Return false).
Proof.
  intros H.
  destruct (truthy name) eqn:Hn;
    [|rewrite adopt_falsy in H by assumption; discriminate].
  destruct (Nat.le_gt_cases (AnimalShelter.count shelter)
                            (List.length (AnimalShelter.pets shelter)))
    as [Hc|Hc];
    [|rewrite adopt_beyond in H by assumption; discriminate].
  rewrite adopt_within in H by assumption.
  injection H as <- _.
  set (adopted := map (adopt_pet name)
                      (firstn (AnimalShelter.count shelter)
                              (AnimalShelter.pets shelter))).
  set (rest := skipn (AnimalShelter.count shelter)
                     (AnimalShelter.pets shelter)).
  assert (L : List.length adopted = AnimalShelter.count shelter).
  { unfold adopted. rewrite length_map. now apply firstn_length_le. }
  assert (F : firstn (AnimalShelter.count shelter) (adopted ++ rest)
              = adopted).
  { rewrite <- L, firstn_app, firstn_all, Nat.sub_diag, firstn_0.
    apply app_nil_r. }
  assert (S : skipn (AnimalShelter.count shelter) (adopted ++ rest) = rest).
  { now rewrite <- L, skipn_app, skipn_all, Nat.sub_diag, skipn_0. }
  rewrite adopt_within; cbn [AnimalShelter.pets AnimalShelter.count].
  - rewrite F, S.
    assert (N : existsb (adoptable name) adopted = false)
      by apply adopted_none_left.
    now rewrite N, (adopt_pet_none name adopted N).
  - assumption.
  - rewrite length_app, L. lia.
Qed.

Lemma adopt_twice_on_seed :
  AnimalShelter.adopt ProjectDriver.animal_shelter (Some "luna")
  = (fst (AnimalShelter.adopt ProjectDriver.animal_shelter (Some "luna")),
     Return true)
  /\ AnimalShelter.adopt
       (fst (AnimalShelter.adopt ProjectDriver.animal_shelter (Some "luna")))
       (Some "luna")
     = (fst (AnimalShelter.adopt ProjectDriver.animal_shelter (Some "luna")),
        Return false).
Proof.
  split.
  - reflexivity.
  - apply (adopt_twice ProjectDriver.animal_shelter). reflexivity.
Defined.

(** ** Invariants *)

(** C7: whatever operations are performed (add, search, adopt, the
    listing), in whatever order, and whatever the user types in a
    session, no slot of the pet array is removed, each keeps its pet, and
    a pet that was not available is still not available. *)
Theorem operations_keep_pets (shelter : AnimalShelter) :
  (forall ops : list operation,
      keeps (AnimalShelter.pets shelter)
            (AnimalShelter.pets (fold_left perform ops shelter)))
  /\ (forall results : list (option jsstr),
         keeps (AnimalShelter.pets shelter)
               (AnimalShelter.pets
                  (UserInterface.animal_shelter
                     (UserInterface.session shelter results)))).
Proof.
  split.
  - intros ops; revert shelter.
    induction ops as [|op ops IH]; intros shelter; simpl.
    + apply keeps_refl.
    + eapply keeps_trans; [apply perform_keeps | apply IH].
  - intros results.
    exact (deliveries_keep results (UserInterface.interact shelter)).
Qed.

(** ** Pets appended by [add] *)

Lemma firstn_within (A : Type) (l extra : list A) (n : nat) :
  n <= List.length l -> firstn n (l ++ extra) = firstn n l.
Proof.
  intros H. rewrite firstn_app.
  replace (n - List.length l) with 0 by lia.
  now rewrite firstn_0, app_nil_r.
Qed.

Lemma skipn_within (A : Type) (l extra : list A) (n : nat) :
  n <= List.length l -> skipn n (l ++ extra) = skipn n l ++ extra.
Proof.
  intros H. rewrite skipn_app.
  replace (n - List.length l) with 0 by lia.
  reflexivity.
Qed.

(** Slots past [count] are neither read nor written: [extra] stands for
    any pets appended behind a shelter whose [count] is within its
    array. *)
Lemma search_ignores (shelter : AnimalShelter) extra type breed :
  AnimalShelter.count shelter <= List.length (AnimalShelter.pets shelter) ->
  AnimalShelter.search
    (AnimalShelter.new (AnimalShelter.pets shelter ++ extra)
                       (AnimalShelter.count shelter)) type breed
  = AnimalShelter.search shelter type breed.
Proof.
  intros H. rewrite (search_within shelter) by exact H.
  rewrite search_within; simpl.
  - now rewrite firstn_within.
  - rewrite length_app; lia.
Qed.

Lemma adopt_ignores (shelter : AnimalShelter) extra name :
  AnimalShelter.count shelter <= List.length (AnimalShelter.pets shelter) ->
  AnimalShelter.adopt
    (AnimalShelter.new (AnimalShelter.pets shelter ++ extra)
                       (AnimalShelter.count shelter)) name
  = (AnimalShelter.new
       (AnimalShelter.pets (fst (AnimalShelter.adopt shelter name)) ++ extra)
       (AnimalShelter.count shelter),
     snd (AnimalShelter.adopt shelter name)).
Proof.
  intros H. destruct (truthy name) eqn:Hn.
  - rewrite (adopt_within shelter) by assumption.
    rewrite adopt_within; simpl; [|assumption|rewrite length_app; lia].
    rewrite firstn_within, skipn_within by exact H.
    now rewrite app_assoc.
  - now rewrite !adopt_falsy by assumption.
Qed.

Lemma listing_ignores (shelter : AnimalShelter) extra lines w :
  AnimalShelter.count shelter <= List.length (AnimalShelter.pets shelter) ->
  UserInterface.console
    (UserInterface.displayShelterAnimals
       (UserInterface.new
          (AnimalShelter.new (AnimalShelter.pets shelter ++ extra)
                             (AnimalShelter.count shelter)) lines w))
  = UserInterface.console
      (UserInterface.displayShelterAnimals
         (UserInterface.new shelter lines w)).
Proof.
  intros H.
  rewrite !displayShelterAnimals_within; simpl;
    [|exact H|rewrite length_app; lia].
  now rewrite firstn_within.
Qed.

Lemma perform_within (shelter : AnimalShelter) op :
  AnimalShelter.count shelter <= List.length (AnimalShelter.pets shelter) ->
  AnimalShelter.count (perform shelter op)
  <= List.length (AnimalShelter.pets (perform shelter op)).
Proof.
  intros H. rewrite perform_count.
  destruct (perform_keeps shelter op) as [L _]. lia.
Qed.

(** A run of operations on a shelter with pets behind it: the [add]s of
    the run pile up behind, untouched, and the rest runs as if alone. *)
Lemma run_ignores (ops : list operation) :
  forall (shelter : AnimalShelter) extra,
    AnimalShelter.count shelter <= List.length (AnimalShelter.pets shelter) ->
    fold_left perform ops
              (AnimalShelter.new (AnimalShelter.pets shelter ++ extra)
                                 (AnimalShelter.count shelter))
    = AnimalShelter.new
        (AnimalShelter.pets (fold_left perform (without_adds ops) shelter)
         ++ extra ++ added ops)
        (AnimalShelter.count shelter).
Proof.
  induction ops as [|op ops IH]; intros shelter extra H.
  - simpl. now rewrite app_nil_r.
  - destruct op as [pet|type breed|name|];
      cbn [fold_left without_adds added].
    + unfold perform at 2, AnimalShelter.add.
      cbn [AnimalShelter.pets AnimalShelter.count].
      rewrite <- app_assoc, IH by exact H.
      now rewrite <- app_assoc.
    + unfold perform at 2. unfold perform at 3. now apply IH.
    + unfold perform at 2. rewrite adopt_ignores by exact H.
      cbn [fst]. fold (perform shelter (Adopt name)).
      rewrite <- (perform_count shelter (Adopt name)).
      rewrite IH by now apply perform_within.
      now rewrite perform_count.
    + unfold perform at 2. rewrite displayShelterAnimals_shelter.
      cbn [UserInterface.animal_shelter].
      unfold perform at 3. rewrite displayShelterAnimals_shelter.
      cbn [UserInterface.animal_shelter]. now apply IH.
Qed.

Lemma run_within (ops : list operation) :
  forall shelter : AnimalShelter,
    AnimalShelter.count shelter <= List.length (AnimalShelter.pets shelter) ->
    AnimalShelter.count (fold_left perform ops shelter)
    = AnimalShelter.count shelter
    /\ AnimalShelter.count shelter
       <= List.length (AnimalShelter.pets (fold_left perform ops shelter)).
Proof.
  induction ops as [|op ops IH]; intros shelter H; simpl.
  - auto.
  - destruct (IH (perform shelter op) (perform_within _ _ H)) as [C L].
    rewrite perform_count in C, L. auto.
Qed.

(** C10, as it stands, fails on a shelter constructed with a [count]
    larger than its array: the pet appended by [add] lands in a slot the
    loops do visit, so it is returned by [search], adopted by [adopt] and
    shown by the listing. *)
Lemma appended_pet_reached_when_count_overstated :
  AnimalShelter.search overstated_and_Rex None None = Return [Rex]
  /\ AnimalShelter.adopt overstated_and_Rex (Some "rex")
     = (AnimalShelter.new [Pet.set_is_available Rex false] 1, Return true)
  /\ UserInterface.console
       (UserInterface.displayShelterAnimals
          (UserInterface.new overstated_and_Rex [] UserInterface.get_input))
     = [(UserInterface.nl ++ "Pets available for adoption:")%string;
        UserInterface.pet_line Rex].
Proof.
  repeat split.
Qed.

(** C10, amended: no operation changes [count]; and on a shelter whose
    [count] does not exceed the length of its array, the pets appended by
    [add] are out of reach.  After any run of operations the array is
    the one the run without its [add]s would have left, followed by the
    appended pets exactly as they were handed to [add] (none adopted);
    and [search], [adopt] and the listing then answer as they would
    after the run without its [add]s. *)
Theorem appended_pets_out_of_reach (shelter : AnimalShelter)
        (ops : list operation) :
  AnimalShelter.count shelter <= List.length (AnimalShelter.pets shelter) ->
  let after := fold_left perform ops shelter in
  let plain := fold_left perform (without_adds ops) shelter in
  AnimalShelter.count after = AnimalShelter.count shelter
  /\ AnimalShelter.pets after = AnimalShelter.pets plain ++ added ops
  /\ (forall type breed,
         AnimalShelter.search after type breed
         = AnimalShelter.search plain type breed)
  /\ (forall name,
         snd (AnimalShelter.adopt after name)
         = snd (AnimalShelter.adopt plain name)
         /\ AnimalShelter.pets (fst (AnimalShelter.adopt after name))
            = AnimalShelter.pets (fst (AnimalShelter.adopt plain name))
              ++ added ops)
  /\ (forall lines w,
         UserInterface.console
           (UserInterface.displayShelterAnimals
              (UserInterface.new after lines w))
         = UserInterface.console
             (UserInterface.displayShelterAnimals
                (UserInterface.new plain lines w))).
Proof.
  intros H after plain.
  destruct (run_within (without_adds ops) shelter H) as [Cp Lp].
  fold plain in Cp, Lp.
  assert (E : after = AnimalShelter.new
                        (AnimalShelter.pets plain ++ added ops)
                        (AnimalShelter.count plain)).
  { unfold after, plain.
    pose proof (run_ignores ops shelter [] H) as R.
    rewrite app_nil_r in R. simpl in R.
    fold plain. fold plain in R. rewrite Cp.
    rewrite <- R. now destruct shelter. }
  assert (W : AnimalShelter.count plain
              <= List.length (AnimalShelter.pets plain)) by lia.
  rewrite E. repeat split; intros.
  - exact Cp.
  - now apply search_ignores.
  - now rewrite adopt_ignores.
  - now rewrite adopt_ignores.
  - now apply listing_ignores.
Qed.

Lemma appended_pets_out_of_reach_on_seed :
  AnimalShelter.count ProjectDriver.animal_shelter
  <= List.length (AnimalShelter.pets ProjectDriver.animal_shelter)
  /\ AnimalShelter.search
       (fold_left perform [Add Rex; Adopt (Some "luna")]
                  ProjectDriver.animal_shelter)
       (Some "dog") (Some "Husky")
     = AnimalShelter.search
         (fold_left perform [Adopt (Some "luna")]
                    ProjectDriver.animal_shelter)
         (Some "dog") (Some "Husky").
Proof.
  split.
  - simpl. lia.
  - apply (appended_pets_out_of_reach ProjectDriver.animal_shelter
             [Add Rex; Adopt (Some "luna")]).
    simpl. lia.
Defined.

(** ** When [count] is the number of pets

    [ProjectDriver.run] constructs the shelter with [pets.length] for
    [count].  As long as the two agree, [search], [adopt] and the listing
    cover the whole shelter ([search_whole] above, and the two lemmas
    below). *)

Lemma adopt_whole (this : AnimalShelter) name :
  truthy name = true ->
  AnimalShelter.count this = List.length (AnimalShelter.pets this) ->
  AnimalShelter.adopt this name
  = (AnimalShelter.new (map (adopt_pet name) (AnimalShelter.pets this))
                       (AnimalShelter.count this),
     Return (existsb (adoptable name) (AnimalShelter.pets this))).
Proof.
  intros Hn H. rewrite adopt_within by (assumption || lia).
  rewrite H at 1 2 4. now rewrite firstn_all, skipn_all, app_nil_r.
Qed.

Lemma listing_whole s :
  let shelter := UserInterface.animal_shelter s in
  AnimalShelter.count shelter = List.length (AnimalShelter.pets shelter) ->
  AnimalShelter.count shelter <> 0 ->
  UserInterface.console (UserInterface.displayShelterAnimals s)
  = UserInterface.console s
    ++ (UserInterface.nl ++ "Pets available for adoption:")%string
    :: map UserInterface.pet_line
           (filter Pet.is_available (AnimalShelter.pets shelter)).
Proof.
  intros shelter H N.
  rewrite displayShelterAnimals_within by (fold shelter; lia).
  fold shelter. simpl.
  apply Nat.eqb_neq in N. rewrite N.
  now rewrite H, firstn_all.
Qed.

(** ** Pets added after seeding *)

(** C1 fails on the code: Rex, added to the seeded shelter with [add]
    and available, is not among the lines of the listing (menu option 1).
    [add] leaves [count] at 8, and the listing stops at [count]. *)
Theorem added_pet_not_listed :
  In Rex (AnimalShelter.pets seed_and_Rex)
  /\ Pet.is_available Rex = true
  /\ ~ In (UserInterface.pet_line Rex)
          (UserInterface.console
             (UserInterface.session seed_and_Rex [typed "1"])).
Proof.
  split; [|split].
  - unfold seed_and_Rex, AnimalShelter.add.
    cbn [AnimalShelter.pets]. apply in_or_app. right. now left.
  - reflexivity.
  - intros H. vm_compute in H.
    repeat (destruct H as [H|H]; [discriminate H|]). exact H.
Qed.

(** C2 fails on the code: on the seeded shelter with Rex added,
    [search("dog", "")] returns the four seeded dogs, while the available
    dogs of the shelter are those four and Rex. *)
Theorem search_misses_added_pet :
  AnimalShelter.search seed_and_Rex (Some "dog") (Some "")
  = Return [ProjectDriver.Luna; ProjectDriver.Teddy;
            ProjectDriver.Charlie; ProjectDriver.Aster]
  /\ filter (wanted (Some "dog") (Some "")) (AnimalShelter.pets seed_and_Rex)
     = [ProjectDriver.Luna; ProjectDriver.Teddy;
        ProjectDriver.Charlie; ProjectDriver.Aster; Rex].
Proof.
  split; reflexivity.
Qed.

(** C3 fails on the code: on the seeded shelter with Rex added,
    [adopt("rex")] returns false and changes nothing, although Rex is
    available and bears that name. *)
Theorem adopt_misses_added_pet :
  AnimalShelter.adopt seed_and_Rex (Some "rex") = (seed_and_Rex, Return false)
  /\ filter (adoptable (Some "rex")) (AnimalShelter.pets seed_and_Rex)
     = [Rex].
Proof.
  split; reflexivity.
Qed.

(** C4 fails on the code: on a shelter constructed empty to which Rex
    was added, [adopt("Rex")] returns false although the name is not
    empty and a pet of that name is in the shelter, not yet adopted. *)
Theorem adopt_false_for_added_pet :
  AnimalShelter.adopt only_Rex (Some "Rex") = (only_Rex, Return false)
  /\ truthy (Some "Rex") = true
  /\ existsb (adoptable (Some "Rex")) (AnimalShelter.pets only_Rex) = true.
Proof.
  repeat split.
Qed.

(** ** The listing when nobody is left *)

Lemma listing_of_nothing s :
  AnimalShelter.count (UserInterface.animal_shelter s) = 0 ->
  UserInterface.console (UserInterface.displayShelterAnimals s)
  = UserInterface.console s
    ++ [(UserInterface.nl ++ "Pets available for adoption:")%string;
        "No pets are currently available."].
Proof.
  intros H. unfold UserInterface.displayShelterAnimals.
  cbn [UserInterface.animal_shelter UserInterface.log].
  rewrite H; simpl. now rewrite <- app_assoc.
Qed.

Lemma none_available (l : list Pet) :
  forallb (fun pet => negb (Pet.is_available pet)) l = true ->
  filter Pet.is_available l = [].
Proof.
  induction l as [|pet l IH]; simpl; [reflexivity|].
  intros H. apply andb_true_iff in H as [Hp Hl].
  destruct (Pet.is_available pet); [discriminate Hp | now apply IH].
Qed.

(** With [count] pets, all adopted, the listing is the heading alone. *)
Lemma listing_of_all_adopted s :
  let shelter := UserInterface.animal_shelter s in
  AnimalShelter.count shelter = List.length (AnimalShelter.pets shelter) ->
  AnimalShelter.count shelter <> 0 ->
  forallb (fun pet => negb (Pet.is_available pet)) (AnimalShelter.pets shelter)
  = true ->
  UserInterface.console (UserInterface.displayShelterAnimals s)
  = UserInterface.console s
    ++ [(UserInterface.nl ++ "Pets available for adoption:")%string].
Proof.
  intros shelter H N A.
  rewrite listing_whole by assumption.
  fold shelter. now rewrite none_available.
Qed.

(** C5 fails on the code: once the eight seeded pets are adopted, menu
    option 1 prints the heading and then the menu again; the line
    "No pets are currently available." is printed only when [count] is
    zero. *)
Theorem listing_silent_when_all_adopted :
  forallb (fun pet => negb (Pet.is_available pet))
          (AnimalShelter.pets (UserInterface.animal_shelter everyone_adopted))
  = true
  /\ UserInterface.console (UserInterface.deliver everyone_adopted (typed "1"))
     = UserInterface.console everyone_adopted
       ++ [(UserInterface.nl ++ "Pets available for adoption:")%string;
           UserInterface.instructions].
Proof.
  split; vm_compute; reflexivity.
Qed.

(** ** Undefined results *)

Lemma ask_callback_undefined s :
  UserInterface.ask_callback s no_result = UserInterface.ask s.
Proof.
  reflexivity.
Qed.

Lemma askName_callback_undefined s :
  UserInterface.askName_callback s no_result
  = UserInterface.await s UserInterface.stopped.
Proof.
  reflexivity.
Qed.

(** C9 fails on the code: the callbacks of [askType] and [askBreed] read
    [result.type] and [result.breed] with no test of [result], so an
    undefined result raises a TypeError that nothing catches; [ask] and
    [askName] do test it. *)
Theorem undefined_result_escapes_type_and_breed :
  (forall s, UserInterface.waiting
               (UserInterface.askType_callback s no_result)
             = UserInterface.uncaught)
  /\ (forall type s, UserInterface.waiting
                       (UserInterface.askBreed_callback type s no_result)
                     = UserInterface.uncaught)
  /\ UserInterface.waiting
       (UserInterface.session ProjectDriver.animal_shelter
                              [typed "2"; no_result])
     = UserInterface.uncaught
  /\ UserInterface.waiting
       (UserInterface.session ProjectDriver.animal_shelter
                              [typed "2"; typed "dog"; no_result])
     = UserInterface.uncaught.
Proof.
  repeat split.
Qed.

(** * Further properties of the code *)

(** ** [AnimalShelter.search] *)

(** X1: [search] in full.  When [count] is within the array it returns
    the available pets among the first [count] that pass both filters, in
    array order; when [count] exceeds the array it raises a TypeError,
    whatever the filters. *)
Theorem search_characterised (this : AnimalShelter) (type breed : jsstr) :
  AnimalShelter.search this type breed
  = if (AnimalShelter.count this <=? List.length (AnimalShelter.pets this))%nat
    then Return (filter (wanted type breed)
                        (firstn (AnimalShelter.count this)
                                (AnimalShelter.pets this)))
    else TypeError.
Proof.
  destruct (Nat.leb_spec (AnimalShelter.count this)
                         (List.length (AnimalShelter.pets this))) as [H|H].
  - now apply search_within.
  - now apply search_beyond.
Qed.

(** X2: whenever [search] returns, every pet it returns is available,
    has the type asked for when a type is given and the breed asked for
    when a breed is given, and is one of the first [count] pets. *)
Theorem search_sound (this : AnimalShelter) (type breed : jsstr)
        (found : list Pet) (pet : Pet) :
  AnimalShelter.search this type breed = Return found ->
  In pet found ->
  Pet.is_available pet = true
  /\ (truthy type = true -> type = Some (Pet.type pet))
  /\ (truthy breed = true -> breed = Some (Pet.breed pet))
  /\ In pet (firstn (AnimalShelter.count this) (AnimalShelter.pets this)).
Proof.
  intros S I.
  destruct (Nat.le_gt_cases (AnimalShelter.count this)
                            (List.length (AnimalShelter.pets this)))
    as [H|H];
    [|rewrite search_beyond in S by exact H; discriminate].
  rewrite search_within in S by exact H.
  injection S as <-. apply filter_In in I as [I W].
  unfold wanted, passes in W.
  apply andb_true_iff in W as [W A]. apply andb_true_iff in W as [T B].
  repeat split; try assumption.
  - intros Ht. rewrite Ht in T. destruct type as [t|]; [|discriminate].
    simpl in T. apply String.eqb_eq in T. now subst.
  - intros Hb. rewrite Hb in B. destruct breed as [b|]; [|discriminate].
    simpl in B. apply String.eqb_eq in B. now subst.
Qed.

Lemma search_sound_on_seed :
  Pet.is_available ProjectDriver.Aster = true
  /\ (truthy (Some "dog") = true
      -> Some "dog" = Some (Pet.type ProjectDriver.Aster))
  /\ (truthy (Some "") = true
      -> Some "" = Some (Pet.breed ProjectDriver.Aster))
  /\ In ProjectDriver.Aster
        (firstn (AnimalShelter.count ProjectDriver.animal_shelter)
                (AnimalShelter.pets ProjectDriver.animal_shelter)).
Proof.
  apply (search_sound ProjectDriver.animal_shelter (Some "dog") (Some "")
           [ProjectDriver.Luna; ProjectDriver.Teddy;
            ProjectDriver.Charlie; ProjectDriver.Aster]).
  - reflexivity.
  - simpl. auto.
Defined.

(** ** [AnimalShelter.adopt] *)


(** X4: whenever [adopt] returns false, the shelter is exactly as it
    was. *)
Theorem adopt_false_unchanged (this this' : AnimalShelter) (name : jsstr) :
  AnimalShelter.adopt this name = (this', Return false) -> this' = this.
Proof.
  intros H.
  destruct (truthy name) eqn:Hn;
    [|rewrite adopt_falsy in H by assumption; congruence].
  destruct (Nat.le_gt_cases (AnimalShelter.count this)
                            (List.length (AnimalShelter.pets this)))
    as [Hc|Hc];
    [|rewrite adopt_beyond in H by assumption; discriminate].
  rewrite adopt_within in H by assumption.
  injection H as <- E.
  rewrite (adopt_pet_none _ _ E), firstn_skipn. now destruct this.
Qed.

Lemma adopt_false_unchanged_on_seed :
  fst (AnimalShelter.adopt ProjectDriver.animal_shelter (Some "Nonexistent"))
  = ProjectDriver.animal_shelter.
Proof.
  apply (adopt_false_unchanged ProjectDriver.animal_shelter _
                               (Some "Nonexistent")).
  reflexivity.
Defined.








Lemma firstn_exact (A : Type) (l rest : list A) (n : nat) :
  List.length l = n -> firstn n (l ++ rest) = l.
Proof.
  intros <-.
  now rewrite firstn_app, firstn_all, Nat.sub_diag, firstn_0, app_nil_r.
Qed.

Lemma skipn_exact (A : Type) (l rest : list A) (n : nat) :
  List.length l = n -> skipn n (l ++ rest) = rest.
Proof.
  intros <-.
  now rewrite skipn_app, skipn_all, Nat.sub_diag, skipn_0.
Qed.

Lemma adopt_pet_commute a b pet :
  adopt_pet a (adopt_pet b pet) = adopt_pet b (adopt_pet a pet).
Proof.
  assert (G : forall n, adopt_pet n (Pet.set_is_available pet false)
                        = Pet.set_is_available pet false).
  { intros n. unfold adopt_pet, adoptable; simpl.
    now rewrite andb_false_r. }
  unfold adopt_pet at 2 4.
  destruct (adoptable a pet) eqn:Ha, (adoptable b pet) eqn:Hb;
    rewrite ?G; unfold adopt_pet; rewrite ?Ha, ?Hb; reflexivity.
Qed.

Lemma adopt_shelter_within (this : AnimalShelter) name :
  AnimalShelter.count this <= List.length (AnimalShelter.pets this) ->
  fst (AnimalShelter.adopt this name)
  = AnimalShelter.new
      (map (if truthy name then adopt_pet name else fun pet => pet)
           (firstn (AnimalShelter.count this) (AnimalShelter.pets this))
       ++ skipn (AnimalShelter.count this) (AnimalShelter.pets this))
      (AnimalShelter.count this).
Proof.
  intros H. destruct (truthy name) eqn:Hn.
  - now rewrite adopt_within.
  - rewrite adopt_falsy by assumption. simpl.
    rewrite map_id, firstn_skipn. now destruct this.
Qed.

(** X7: two adoptions in a row leave the same shelter in either order
    (on a shelter whose [count] is within its array). *)
Theorem adopt_order_irrelevant (this : AnimalShelter) (a b : jsstr) :
  AnimalShelter.count this <= List.length (AnimalShelter.pets this) ->
  fst (AnimalShelter.adopt (fst (AnimalShelter.adopt this a)) b)
  = fst (AnimalShelter.adopt (fst (AnimalShelter.adopt this b)) a).
Proof.
  intros H.
  assert (G : forall x y,
             fst (AnimalShelter.adopt (fst (AnimalShelter.adopt this x)) y)
             = AnimalShelter.new
                 (map (if truthy y then adopt_pet y else fun pet => pet)
                      (map (if truthy x then adopt_pet x else fun pet => pet)
                           (firstn (AnimalShelter.count this)
                                   (AnimalShelter.pets this)))
                  ++ skipn (AnimalShelter.count this)
                           (AnimalShelter.pets this))
                 (AnimalShelter.count this)).
  { intros x y. rewrite (adopt_shelter_within this x H).
    set (f := if truthy x then adopt_pet x else fun pet => pet).
    set (pre := firstn (AnimalShelter.count this) (AnimalShelter.pets this)).
    set (rest := skipn (AnimalShelter.count this) (AnimalShelter.pets this)).
    assert (L : List.length (map f pre) = AnimalShelter.count this).
    { unfold pre. rewrite length_map. now apply firstn_length_le. }
    rewrite adopt_shelter_within; cbn [AnimalShelter.pets AnimalShelter.count].
    - now rewrite (firstn_exact _ _ rest _ L), (skipn_exact _ _ rest _ L).
    - rewrite length_app. lia. }
  rewrite (G a b), (G b a). f_equal. f_equal.
  rewrite !map_map. apply map_ext. intros pet.
  destruct (truthy a), (truthy b); try reflexivity.
  apply adopt_pet_commute.
Qed.

Lemma adopt_order_irrelevant_on_seed :
  fst (AnimalShelter.adopt
         (fst (AnimalShelter.adopt ProjectDriver.animal_shelter
                                   (Some "luna"))) (Some "Timmy"))
  = fst (AnimalShelter.adopt
           (fst (AnimalShelter.adopt ProjectDriver.animal_shelter
                                     (Some "Timmy"))) (Some "luna")).
Proof.
  apply (adopt_order_irrelevant ProjectDriver.animal_shelter).
  simpl. lia.
Defined.

(** ** [displayShelterAnimals] *)

Lemma display_loop_overruns (mid : list Pet) :
  forall pre k s,
    UserInterface.display_loop (pre ++ mid)
                               (List.length pre) (List.length mid + S k) s
    = UserInterface.await (UserInterface.print_found mid s)
                          UserInterface.uncaught.
Proof.
  induction mid as [|pet mid IH]; intros pre k s; simpl.
  - now rewrite app_nil_r, nth_error_end.
  - rewrite nth_error_middle.
    rewrite snoc_middle, <- (length_snoc _ pre pet). apply IH.
Qed.

(** X8: the listing in full.  It prints the heading; then, when [count]
    is zero, the line "No pets are currently available." (whatever the
    array holds); otherwise one line for each available pet among the
    first [count], in array order, and nothing at all when none of them
    is available.  When [count] exceeds the array, the pets of the array
    are listed and then a TypeError escapes.  The shelter is not
    touched. *)
Theorem listing_characterised (s : UserInterface.t) :
  let shelter := UserInterface.animal_shelter s in
  UserInterface.displayShelterAnimals s
  = UserInterface.new
      shelter
      (UserInterface.console s
       ++ (UserInterface.nl ++ "Pets available for adoption:")%string
       :: (if (AnimalShelter.count shelter =? 0)%nat
           then ["No pets are currently available."]
           else map UserInterface.pet_line
                    (filter Pet.is_available
                            (firstn (AnimalShelter.count shelter)
                                    (AnimalShelter.pets shelter)))))
      (if (AnimalShelter.count shelter
           <=? List.length (AnimalShelter.pets shelter))%nat
       then UserInterface.waiting s
       else UserInterface.uncaught).
Proof.
  intros shelter.
  destruct (Nat.leb_spec (AnimalShelter.count shelter)
                         (List.length (AnimalShelter.pets shelter)))
    as [H|H].
  - now apply displayShelterAnimals_within.
  - unfold UserInterface.displayShelterAnimals.
    cbn [UserInterface.animal_shelter UserInterface.log]. fold shelter.
    destruct (Nat.eqb_spec (AnimalShelter.count shelter) 0) as [E|E];
      [lia|].
    pose proof (display_loop_overruns (AnimalShelter.pets shelter) []
                  (AnimalShelter.count shelter
                   - List.length (AnimalShelter.pets shelter) - 1)) as V.
    simpl in V.
    replace (List.length (AnimalShelter.pets shelter)
             + S (AnimalShelter.count shelter
                  - List.length (AnimalShelter.pets shelter) - 1))
      with (AnimalShelter.count shelter) in V by lia.
    rewrite V, print_found_prints, firstn_all2 by lia.
    unfold UserInterface.await, UserInterface.log; simpl.
    now rewrite <- app_assoc.
Qed.

(** ** The callbacks of [askBreed] and [askName] *)

Lemma wanted_are_available type breed (l : list Pet) :
  filter Pet.is_available (filter (wanted type breed) l)
  = filter (wanted type breed) l.
Proof.
  induction l as [|pet l IH]; [reflexivity|].
  cbn [filter]. destruct (wanted type breed pet) eqn:W; [|exact IH].
  cbn [filter]. unfold wanted in W. apply andb_true_iff in W as [_ A].
  now rewrite A, IH.
Qed.

(** X9: what the breed prompt prints, on a shelter whose [count] is
    within its array.  One line for each pet [search] returned (the
    second availability test drops none), or, when [search] returned
    nothing, the one line that names the filters that were set; then the
    menu.  The session is back at the menu prompt and the shelter is
    untouched. *)
Theorem askBreed_prints (type : jsstr) (s : UserInterface.t)
        (breed : jsstr) :
  let shelter := UserInterface.animal_shelter s in
  let found := filter (wanted type breed)
                      (firstn (AnimalShelter.count shelter)
                              (AnimalShelter.pets shelter)) in
  AnimalShelter.count shelter <= List.length (AnimalShelter.pets shelter) ->
  UserInterface.askBreed_callback type s (Some breed)
  = UserInterface.new
      shelter
      (UserInterface.console s
       ++ match found with
          | [] => [no_match_line type breed]
          | _ :: _ => map UserInterface.pet_line found
          end
       ++ [UserInterface.instructions])
      UserInterface.get_input.
Proof.
  intros shelter found H. unfold UserInterface.askBreed_callback.
  fold shelter. rewrite search_within by exact H. fold found.
  destruct found as [|pet rest] eqn:F.
  - unfold no_match_line.
    destruct (truthy type), (truthy breed); simpl;
      unfold UserInterface.ask, UserInterface.await, UserInterface.log;
      simpl; now rewrite <- app_assoc.
  - cbn [List.length Nat.ltb Nat.leb].
    rewrite print_found_prints. rewrite <- F.
    unfold found at 1. rewrite wanted_are_available. fold found.
    unfold UserInterface.ask, UserInterface.await, UserInterface.log;
      simpl. now rewrite <- app_assoc.
Qed.

Lemma askBreed_prints_on_seed :
  UserInterface.console
    (UserInterface.askBreed_callback (Some "cat") ProjectDriver.run
                                     (Some (Some "Husky")))
  = UserInterface.console ProjectDriver.run
    ++ ["No pets are available for selected type (cat and breed Husky.";
        UserInterface.instructions].
Proof.
  refine (eq_trans
            (f_equal UserInterface.console
                     (askBreed_prints (Some "cat") ProjectDriver.run
                                      (Some "Husky") _)) _).
  - simpl. lia.
  - reflexivity.
Defined.



(** ** The session as a whole *)

Lemma adopt_length (this : AnimalShelter) name :
  List.length (AnimalShelter.pets (fst (AnimalShelter.adopt this name)))
  = List.length (AnimalShelter.pets this).
Proof.
  destruct (truthy name) eqn:Hn;
    [|now rewrite adopt_falsy by assumption].
  destruct (Nat.le_gt_cases (AnimalShelter.count this)
                            (List.length (AnimalShelter.pets this)))
    as [H|H].
  - rewrite adopt_within by assumption. cbn [fst AnimalShelter.pets].
    rewrite length_app, length_map, <- length_app.
    now rewrite firstn_skipn.
  - rewrite adopt_beyond by assumption. apply length_map.
Qed.

Lemma deliver_size s result :
  let shelter := UserInterface.animal_shelter s in
  let shelter' := UserInterface.animal_shelter
                    (UserInterface.deliver s result) in
  AnimalShelter.count shelter' = AnimalShelter.count shelter
  /\ List.length (AnimalShelter.pets shelter')
     = List.length (AnimalShelter.pets shelter).
Proof.
  unfold UserInterface.deliver.
  destruct (UserInterface.waiting s); cbv zeta.
  - now rewrite ask_callback_shelter.
  - unfold UserInterface.askType_callback.
    destruct result as [type|]; [|now split].
    now destruct (_ || _).
  - now rewrite askBreed_callback_shelter.
  - unfold UserInterface.askName_callback.
    destruct result as [name|]; [|now split].
    destruct (truthy name); [|now split].
    pose proof (adopt_count (UserInterface.animal_shelter s) name) as C.
    pose proof (adopt_length (UserInterface.animal_shelter s) name) as L.
    destruct (AnimalShelter.adopt (UserInterface.animal_shelter s) name)
      as [shelter' [[|]|]]; now split.
  - now split.
  - now split.
Qed.

(** X11: a session never changes the size of the shelter: whatever
    [prompt] delivers, [count] and the number of pets in the array stay
    what they were at the start (the session never calls [add]). *)
Theorem session_keeps_size (shelter : AnimalShelter)
        (results : list (option jsstr)) :
  let shelter' := UserInterface.animal_shelter
                    (UserInterface.session shelter results) in
  AnimalShelter.count shelter' = AnimalShelter.count shelter
  /\ List.length (AnimalShelter.pets shelter')
     = List.length (AnimalShelter.pets shelter).
Proof.
  unfold UserInterface.session.
  change shelter
    with (UserInterface.animal_shelter (UserInterface.interact shelter))
    at 2 4.
  generalize (UserInterface.interact shelter) as s.
  induction results as [|result results IH]; intros s; simpl.
  - now split.
  - destruct (IH (UserInterface.deliver s result)) as [C L].
    destruct (deliver_size s result) as [C1 L1].
    split; congruence.
Qed.

Lemma deliver_safe s (value : jsstr) :
  let shelter := UserInterface.animal_shelter s in
  AnimalShelter.count shelter <= List.length (AnimalShelter.pets shelter) ->
  UserInterface.waiting s <> UserInterface.uncaught ->
  UserInterface.waiting (UserInterface.deliver s (Some value))
  <> UserInterface.uncaught.
Proof.
  intros shelter H W. unfold UserInterface.deliver.
  destruct (UserInterface.waiting s) eqn:Ws;
    try (rewrite Ws; exact W).
  - unfold UserInterface.ask_callback.
    repeat match goal with
           | |- context [if ?b then _ else _] => destruct b
           end; try discriminate.
    unfold UserInterface.and_then.
    rewrite displayShelterAnimals_within by exact H.
    cbn [UserInterface.waiting]. rewrite Ws. discriminate.
  - unfold UserInterface.askType_callback.
    destruct (_ || _); discriminate.
  - unfold UserInterface.askBreed_callback. fold shelter.
    rewrite search_within by exact H. discriminate.
  - unfold UserInterface.askName_callback. fold shelter.
    destruct (truthy value) eqn:Hv; [|discriminate].
    rewrite adopt_within by assumption. discriminate.
Qed.

(** X12: as long as [prompt] hands every callback a result, and [count]
    is within the array, no TypeError escapes: the session is never left
    with an uncaught error, whatever the user types. *)
Theorem session_safe_on_results (shelter : AnimalShelter)
        (lines : list jsstr) :
  AnimalShelter.count shelter <= List.length (AnimalShelter.pets shelter) ->
  UserInterface.waiting (UserInterface.session shelter (map Some lines))
  <> UserInterface.uncaught.
Proof.
  intros H. unfold UserInterface.session.
  assert (W : UserInterface.waiting (UserInterface.interact shelter)
              <> UserInterface.uncaught) by discriminate.
  change shelter
    with (UserInterface.animal_shelter (UserInterface.interact shelter))
    in H.
  revert H W. generalize (UserInterface.interact shelter) as s.
  induction lines as [|value lines IH]; intros s H W; simpl.
  - exact W.
  - apply IH.
    + destruct (deliver_size s (Some value)) as [C L]. lia.
    + now apply deliver_safe.
Qed.

Lemma session_safe_on_results_on_seed :
  UserInterface.waiting
    (UserInterface.session ProjectDriver.animal_shelter
       (map Some [Some "2"; Some "bird"; None; Some "3"; Some ""; None]))
  <> UserInterface.uncaught.
Proof.
  apply (session_safe_on_results ProjectDriver.animal_shelter).
  simpl. lia.
Defined.




(** X14: where a TypeError can escape.  On a shelter whose [count] is
    within its array, delivering to a session that has not failed makes
    it fail exactly when the result is undefined and the outstanding
    prompt is the type prompt or the breed prompt. *)
Theorem uncaught_only_at_type_and_breed (s : UserInterface.t)
        (result : option jsstr) :
  let shelter := UserInterface.animal_shelter s in
  AnimalShelter.count shelter <= List.length (AnimalShelter.pets shelter) ->
  UserInterface.waiting s <> UserInterface.uncaught ->
  (UserInterface.waiting (UserInterface.deliver s result)
   = UserInterface.uncaught
   <-> result = None
       /\ (UserInterface.waiting s = UserInterface.get_type
           \/ exists type,
               UserInterface.waiting s = UserInterface.get_breed type)).
Proof.
  intros shelter H W. split.
  - intros U. destruct result as [value|].
    + now apply (deliver_safe s value H W) in U.
    + split; [reflexivity|].
      unfold UserInterface.deliver in U.
      destruct (UserInterface.waiting s) eqn:Ws;
        try discriminate U; try (rewrite Ws in U; discriminate U).
      * now left.
      * right. now exists type.
      * now contradiction W.
  - intros [-> [Ws | [type Ws]]];
      unfold UserInterface.deliver; now rewrite Ws.
Qed.

Lemma uncaught_only_at_type_and_breed_on_seed :
  UserInterface.waiting
    (UserInterface.deliver
       (UserInterface.session ProjectDriver.animal_shelter [typed "2"])
       no_result)
  = UserInterface.uncaught
  <-> no_result = None
      /\ (UserInterface.waiting
            (UserInterface.session ProjectDriver.animal_shelter [typed "2"])
          = UserInterface.get_type
          \/ exists type,
              UserInterface.waiting
                (UserInterface.session ProjectDriver.animal_shelter
                                       [typed "2"])
              = UserInterface.get_breed type).
Proof.
  apply (uncaught_only_at_type_and_breed
           (UserInterface.session ProjectDriver.animal_shelter [typed "2"])
           no_result).
  - simpl. lia.
  - discriminate.
Defined.



